(** * Asynchronous error handling in Express: the three sample programs

    The repository holds three sample servers, [promises.js], [generators.js]
    and [asyncAwait.js].  Each one registers a single route whose handler runs
    a succeeding asynchronous task, writes its result, runs a failing one, and
    relies on [.catch(next)] to bring the failure to the error-handling
    middleware.

    The development embeds the three programs over a small model of the
    JavaScript they are written in: synchronous code is a state transformer
    that returns or throws, a promise is a state transformer that fulfils or
    rejects, a generator is a tree of statements and [yield]s that a driver
    resumes, and an [async] function is direct-style code whose [await] throws
    on rejection.  Only one request is in flight, so the callbacks of its chain
    run in program order and the state a handler "returns" is the one left when
    the event loop has drained. *)

From Stdlib Require Import String List Bool ZArith Lia.
Import ListNotations.
Open Scope string_scope.

(** ** JavaScript values and the state of one request *)

(** An [Error] object: the value a failing task rejects with and a [throw]
    raises.  The middleware reads [message] only. *)
Record failure := { message : string; stack : string }.

(** What a task resolves with and what a callback returns. *)
Inductive value :=
| VUndefined
| VString (s : string).

(** String conversion inside a template literal [`${v}`]. *)
Definition to_string (v : value) : string :=
  match v with
  | VUndefined => "undefined"
  | VString s => s
  end.

(** The response of the request and three logs kept beside it: the calls of
    the next-stage callback, the invocations of the error-handling stage, and
    the failures nothing in the program handled.  Logs grow at the end. *)
Record world := {
  body : string;
  finished : bool;
  nexts : list failure;
  reported : list failure;
  unhandled : list failure
}.

(** The state the framework starts a request in. *)
Definition fresh : world :=
  {| body := ""; finished := false; nexts := []; reported := []; unhandled := [] |}.

Definition note_next (e : failure) (w : world) : world :=
  {| body := body w; finished := finished w; nexts := nexts w ++ [e];
     reported := reported w; unhandled := unhandled w |}.

Definition note_reported (e : failure) (w : world) : world :=
  {| body := body w; finished := finished w; nexts := nexts w;
     reported := reported w ++ [e]; unhandled := unhandled w |}.

Definition note_unhandled (e : failure) (w : world) : world :=
  {| body := body w; finished := finished w; nexts := nexts w;
     reported := reported w; unhandled := unhandled w ++ [e] |}.

(** ** Synchronous code and promises *)

(** A synchronous call returns or throws. *)
Inductive completion (A : Type) :=
| Normal (a : A)
| Abrupt (e : failure).
Arguments Normal {A} a.
Arguments Abrupt {A} e.

(** A promise settles: fulfilled or rejected. *)
Inductive outcome (A : Type) :=
| Fulfilled (a : A)
| Rejected (e : failure).
Arguments Fulfilled {A} a.
Arguments Rejected {A} e.

Definition sync (A : Type) : Type := world -> completion A * world.
Definition promise (A : Type) : Type := world -> outcome A * world.

Definition ret {A} (a : A) : sync A := fun w => (Normal a, w).
Definition throw {A} (e : failure) : sync A := fun w => (Abrupt e, w).

Definition bind {A B} (c : sync A) (k : A -> sync B) : sync B :=
  fun w =>
    match c w with
    | (Normal a, w1) => k a w1
    | (Abrupt e, w1) => (Abrupt e, w1)
    end.

Declare Scope js_scope.
Delimit Scope js_scope with js.
Notation "x <- c ;; k" := (bind c (fun x => k))
  (at level 61, c at next level, right associativity) : js_scope.
Notation "c ;; k" := (bind c (fun _ => k))
  (at level 61, right associativity) : js_scope.
Open Scope js_scope.

(** [res.write(chunk)]: the chunk joins the body; a response that has ended
    takes no more data. *)
Definition res_write (chunk : string) : sync value :=
  fun w =>
    (Normal VUndefined,
     if finished w then w
     else {| body := body w ++ chunk; finished := false; nexts := nexts w;
             reported := reported w; unhandled := unhandled w |}).

(** [res.end(chunk)]: the last chunk, then the response is over; ending an
    ended response does nothing. *)
Definition res_end (chunk : string) : sync value :=
  fun w =>
    (Normal VUndefined,
     if finished w then w
     else {| body := body w ++ chunk; finished := true; nexts := nexts w;
             reported := reported w; unhandled := unhandled w |}).

(** An argument of a call: the request and response handles, a callback that
    takes a failure (such as [next]), a plain value, or nothing. *)
Inductive jsarg :=
| AUndefined
| AReq
| ARes
| AFn (f : failure -> sync value)
| AVal (v : value).

(** [args[i]]: a missing position reads [undefined]. *)
Definition arg (i : nat) (args : list jsarg) : jsarg := nth i args AUndefined.

(** What a [then] callback hands back: a plain value or another promise. *)
Inductive returned :=
| RetValue (v : value)
| RetPromise (p : promise value).

(** A promise that is already settled. *)
Definition settled {A} (o : outcome A) : promise A := fun w => (o, w).

(** [p.then(f)]: [f] runs on fulfilment; a value it returns fulfils the new
    promise, a promise it returns is followed, a throw rejects; a rejection
    of [p] passes through untouched. *)
Definition then_ (p : promise value) (f : value -> sync returned) : promise value :=
  fun w =>
    match p w with
    | (Fulfilled v, w1) =>
        match f v w1 with
        | (Normal (RetValue v'), w2) => (Fulfilled v', w2)
        | (Normal (RetPromise q), w2) => q w2
        | (Abrupt e, w2) => (Rejected e, w2)
        end
    | (Rejected e, w1) => (Rejected e, w1)
    end.

(** [p.catch(h)]: a callable [h] runs on rejection and its return value
    fulfils the new promise (its throw rejects it); anything else given as
    [h] is ignored and the rejection passes through. *)
Definition catch_ (p : promise value) (h : jsarg) : promise value :=
  fun w =>
    match p w with
    | (Fulfilled v, w1) => (Fulfilled v, w1)
    | (Rejected e, w1) =>
        match h with
        | AFn f =>
            match f e w1 with
            | (Normal v, w2) => (Fulfilled v, w2)
            | (Abrupt e', w2) => (Rejected e', w2)
            end
        | _ => (Rejected e, w1)
        end
    end.

(** A promise used as an expression statement, or returned to a caller that
    drops it: the surrounding code goes on; a rejection left on it is unhandled. *)
Definition discard (p : promise value) : sync value :=
  fun w =>
    match p w with
    | (Fulfilled _, w1) => (Normal VUndefined, w1)
    | (Rejected e, w1) => (Normal VUndefined, note_unhandled e w1)
    end.

(** ** Generators and their driver *)

(** The body of a generator function, seen from a point of suspension: it
    returns, throws, runs a synchronous statement, or evaluates the operand
    of a [yield] (a call that returns a promise, or throws), yields the
    promise and waits to be resumed with a value.  The sample generators hold
    no [try] block, so a failure thrown into one at a [yield] leaves it at
    once. *)
Inductive generator :=
| GReturn (v : value)
| GThrow (e : failure)
| GDo (c : sync value) (rest : value -> generator)
| GYield (operand : sync (promise value)) (resume : value -> generator).

Module Bluebird.

(** The driver behind [Promise.coroutine]: a yielded promise that fulfils
    resumes the generator with its value ([generator.next(v)]), one that
    rejects is thrown into it ([generator.throw(e)]); a throw of the body,
    from a statement or from the driver, rejects the promise of the run. *)
Fixpoint run (g : generator) (w : world) {struct g} : outcome value * world :=
  match g with
  | GReturn v => (Fulfilled v, w)
  | GThrow e => (Rejected e, w)
  | GDo c rest =>
      match c w with
      | (Normal v, w1) => run (rest v) w1
      | (Abrupt e, w1) => (Rejected e, w1)
      end
  | GYield operand resume =>
      match operand w with
      | (Normal p, w1) =>
          match p w1 with
          | (Fulfilled v, w2) => run (resume v) w2
          | (Rejected e, w2) => (Rejected e, w2)
          end
      | (Abrupt e, w1) => (Rejected e, w1)
      end
  end.

(** [Promise.coroutine(genFn)]: a function that builds the generator from
    the arguments it is called with and drives it. *)
Definition coroutine (genFn : list jsarg -> generator) : list jsarg -> promise value :=
  fun args => run (genFn args).

End Bluebird.

(** ** [async] functions *)

(** [await p] inside an [async] function: the value of [p], or its rejection
    reason thrown at that point. *)
Definition await (p : promise value) : sync value :=
  fun w =>
    match p w with
    | (Fulfilled v, w1) => (Normal v, w1)
    | (Rejected e, w1) => (Abrupt e, w1)
    end.

(** [async (...) => { body }]: calling it never throws; what the body returns
    fulfils the promise of the call and what it throws rejects it. *)
Definition async (fnbody : list jsarg -> sync value) : list jsarg -> promise value :=
  fun args w =>
    match fnbody args w with
    | (Normal v, w1) => (Fulfilled v, w1)
    | (Abrupt e, w1) => (Rejected e, w1)
    end.

(** ** The framework *)

Module Express.

Inductive method := GET | POST | PUT | DELETE.

Definition method_eqb (a b : method) : bool :=
  match a, b with
  | GET, GET | POST, POST | PUT, PUT | DELETE, DELETE => true
  | _, _ => false
  end.

(** A route handler is called with [(req, res, next)], an error-handling
    middleware with the failure first. *)
Definition handler : Type := list jsarg -> sync value.
Definition error_handler : Type := failure -> list jsarg -> sync value.

Record route := { verb : method; path : string; action : handler }.

Record app := {
  routes : list route;
  error_stages : list error_handler;
  port : option Z
}.

(** [express()] *)
Definition express : app := {| routes := []; error_stages := []; port := None |}.

(** [app.get(path, handler)] *)
Definition get (p : string) (h : handler) (a : app) : app :=
  {| routes := routes a ++ [{| verb := GET; path := p; action := h |}];
     error_stages := error_stages a; port := port a |}.

(** [app.use(fn)] with a function of four parameters. *)
Definition use (h : error_handler) (a : app) : app :=
  {| routes := routes a; error_stages := error_stages a ++ [h]; port := port a |}.

(** [app.listen(port)] *)
Definition listen (n : Z) (a : app) : app :=
  {| routes := routes a; error_stages := error_stages a; port := Some n |}.

(** [next(er)]: the failure goes to the first error-handling middleware,
    which may pass it on through its own [next]; a throw of a middleware is
    passed on too.  With no middleware left the failure is the framework's
    to answer, and the program has not handled it. *)
Fixpoint forward (stages : list error_handler) (er : failure) (w : world)
  {struct stages} : completion value * world :=
  match stages with
  | [] => (Normal VUndefined, note_unhandled er w)
  | h :: later =>
      match h er [AReq; ARes; AFn (fun er' => forward later er')] (note_reported er w) with
      | (Normal v, w1) => (Normal v, w1)
      | (Abrupt e', w1) => forward later e' w1
      end
  end.

(** The [next] a route handler receives. *)
Definition next (a : app) : failure -> sync value :=
  fun er w => forward (error_stages a) er (note_next er w).

(** The three arguments of a route handler. *)
Definition call_args (a : app) : list jsarg := [AReq; ARes; AFn (next a)].

Definition matches (m : method) (p : string) (r : route) : bool :=
  method_eqb m (verb r) && String.eqb p (path r).

(** One request: the first matching route runs; the framework catches what
    the handler throws while it runs synchronously and gives it to [next]
    (the article in the repository: "Express will catch any exception thrown
    within the initial synchronous execution of a route and pass it along to
    the next error-handling middleware").  No matching route: the program has
    nothing to say. *)
Definition dispatch (a : app) (m : method) (p : string) (w : world) : option world :=
  match find (matches m p) (routes a) with
  | None => None
  | Some r =>
      match action r (call_args a) w with
      | (Normal _, w1) => Some w1
      | (Abrupt e, w1) => Some (snd (next a e w1))
      end
  end.

(** A request on a fresh response. *)
Definition request (a : app) (m : method) (p : string) : option world :=
  dispatch a m p fresh.

End Express.

(** ** [testUtils]: the two stand-in tasks *)

Definition newline : string := String (Ascii.ascii_of_nat 10) EmptyString.

(** The interface the samples use: two functions of no argument; a call
    returns a promise, unless it throws. *)
Record TestUtils := {
  asyncTaskGood : sync (promise value);
  asyncTaskBad : sync (promise value)
}.

(** A call of [task] returns a promise that fulfils with [v]; neither the
    call nor the promise touches the response. *)
Definition resolves_with (task : sync (promise value)) (v : value) : Prop :=
  exists p : promise value,
    (forall w, task w = (Normal p, w)) /\ (forall w, p w = (Fulfilled v, w)).

(** A call of [task] returns a promise that rejects with [e]. *)
Definition rejects_with (task : sync (promise value)) (e : failure) : Prop :=
  exists p : promise value,
    (forall w, task w = (Normal p, w)) /\ (forall w, p w = (Rejected e, w)).

(** Modelled from the spec: the module [testUtils] is not among the sources.
    The spec gives "two stand-in asynchronous operations, one that always
    succeeds (returning a fixed greeting string) and one that always fails
    (producing a fixed error message)"; the greeting and the message are the
    ones of the sample output, and the stack carries no information here. *)
Definition oh_no : failure := {| message := "oh no!"; stack := "Error: oh no!" |}.

Definition testUtils : TestUtils :=
  {| asyncTaskGood := ret (settled (Fulfilled (VString "Hello World")));
     asyncTaskBad := ret (settled (Rejected oh_no)) |}.

(** ** The three programs *)

Module Promises.

(** [promises.js], lines 7-18. *)
Definition handler (testUtils : TestUtils) : Express.handler :=
  fun args =>
    let next := arg 2 args in
    started <- asyncTaskGood testUtils ;;
    discard
      (catch_
         (then_
            (then_ started
               (fun result =>
                  res_write (to_string result ++ newline) ;;
                  second <- asyncTaskBad testUtils ;;
                  ret (RetPromise second)))
            (fun result =>
               res_write "will not make it here" ;;
               ret (RetValue VUndefined)))
         next).

(** [promises.js], lines 20-22. *)
Definition error_middleware : Express.error_handler :=
  fun er args => res_end (message er).

(** [promises.js], lines 5-24. *)
Definition app (testUtils : TestUtils) : Express.app :=
  Express.listen 3000
    (Express.use error_middleware
       (Express.get "/" (handler testUtils) Express.express)).

End Promises.

Module Generators.

(** [generators.js], lines 8-13. *)
Definition wrap (genFn : list jsarg -> generator) : Express.handler :=
  let cr := Bluebird.coroutine genFn in
  fun args =>
    let req := arg 0 args in
    let res := arg 1 args in
    let next := arg 2 args in
    discard (catch_ (cr [req; res; next]) next).

(** [generators.js], lines 15-20: the generator function of the route. *)
Definition route_body (testUtils : TestUtils) : list jsarg -> generator :=
  fun args =>
    GYield (asyncTaskGood testUtils) (fun result =>
    GDo (res_write (to_string result ++ newline)) (fun _ =>
    GYield (asyncTaskBad testUtils) (fun _ =>
    GDo (res_write "will not make it here") (fun _ =>
    GReturn VUndefined)))).

(** [generators.js], lines 22-24. *)
Definition error_middleware : Express.error_handler :=
  fun er args => res_end (message er).

(** [generators.js], lines 6-26. *)
Definition app (testUtils : TestUtils) : Express.app :=
  Express.listen 3000
    (Express.use error_middleware
       (Express.get "/" (wrap (route_body testUtils)) Express.express)).

End Generators.

Module AsyncAwait.

(** [asyncAwait.js], line 6:
    [let wrap = fn => (...args) => fn(...args).catch(args[2])]. *)
Definition wrap (fn : list jsarg -> promise value) : Express.handler :=
  fun args => discard (catch_ (fn args) (arg 2 args)).

(** [asyncAwait.js], lines 8-13: the [async] arrow function of the route. *)
Definition route_body (testUtils : TestUtils) : list jsarg -> promise value :=
  async (fun args =>
    started <- asyncTaskGood testUtils ;;
    result <- await started ;;
    res_write (to_string result ++ newline) ;;
    second <- asyncTaskBad testUtils ;;
    await second ;;
    res_write "will not make it here" ;;
    ret VUndefined).

(** [asyncAwait.js], lines 15-17. *)
Definition error_middleware : Express.error_handler :=
  fun er args => res_end (message er).

(** [asyncAwait.js], lines 4-19. *)
Definition app (testUtils : TestUtils) : Express.app :=
  Express.listen 3000
    (Express.use error_middleware
       (Express.get "/" (wrap (route_body testUtils)) Express.express)).

End AsyncAwait.

(** ** Handler logic, and its expression in the three conventions

    The route handlers above are straight-line code: asynchronous steps, each
    followed by synchronous statements that use its result.  [logic] is that
    shape for any number of steps; [Chained], [Coroutine] and [Native] express
    one [logic] the way [promises.js], [generators.js] and [asyncAwait.js]
    express the sample one. *)

(** A synchronous statement of a handler: [res.write(chunk)] or [throw e]. *)
Inductive stmt :=
| SWrite (chunk : string)
| SThrow (e : failure).

Definition block : Type := list stmt.

Fixpoint run_block (b : block) : sync value :=
  match b with
  | [] => ret VUndefined
  | SWrite chunk :: b' => res_write chunk ;; run_block b'
  | SThrow e :: _ => throw e
  end.

(** An asynchronous step: the settled result of its operation, and the
    statements that follow it, given the value it resolved with. *)
Record step := { operation : outcome value; continuation : value -> block }.

(** The statements before the first step, then the steps. *)
Record logic := { prologue : block; steps : list step }.

Module Chained.

(** The chain [p.then(f1).then(f2)...]: each callback runs the statements
    of its step and returns the promise of the next operation; the last one
    returns nothing. *)
Fixpoint chain (p : promise value) (k : value -> block) (later : list step)
  {struct later} : promise value :=
  match later with
  | [] => then_ p (fun result => run_block (k result) ;; ret (RetValue VUndefined))
  | st :: later' =>
      chain
        (then_ p (fun result =>
                    run_block (k result) ;;
                    ret (RetPromise (settled (operation st)))))
        (continuation st) later'
  end.

(** [function (req, res, next) { prologue; op1().then(...)....catch(next) }] *)
Definition handler (l : logic) : Express.handler :=
  fun args =>
    let next := arg 2 args in
    run_block (prologue l) ;;
    match steps l with
    | [] => ret VUndefined
    | st :: later =>
        discard (catch_ (chain (settled (operation st)) (continuation st) later) next)
    end.

End Chained.

Module Coroutine.

Fixpoint gen_block (b : block) (rest : generator) : generator :=
  match b with
  | [] => rest
  | SWrite chunk :: b' => GDo (res_write chunk) (fun _ => gen_block b' rest)
  | SThrow e :: _ => GThrow e
  end.

Fixpoint gen_steps (ss : list step) : generator :=
  match ss with
  | [] => GReturn VUndefined
  | st :: later =>
      GYield (ret (settled (operation st)))
        (fun result => gen_block (continuation st result) (gen_steps later))
  end.

(** [function *(req, res) { prologue; let r = yield op1(); ... }] *)
Definition genFn (l : logic) : list jsarg -> generator :=
  fun args => gen_block (prologue l) (gen_steps (steps l)).

Definition handler (l : logic) : Express.handler := Generators.wrap (genFn l).

End Coroutine.

Module Native.

Fixpoint await_steps (ss : list step) : sync value :=
  match ss with
  | [] => ret VUndefined
  | st :: later =>
      result <- await (settled (operation st)) ;;
      run_block (continuation st result) ;;
      await_steps later
  end.

(** [async (req, res) => { prologue; let r = await op1(); ... }] *)
Definition fn (l : logic) : list jsarg -> promise value :=
  async (fun args => run_block (prologue l) ;; await_steps (steps l)).

Definition handler (l : logic) : Express.handler := AsyncAwait.wrap (fn l).

End Native.

(** The three calling conventions: chained completion ([promises.js]),
    coroutine ([generators.js]), native suspend and resume ([asyncAwait.js]). *)
Inductive convention := ChainedStyle | CoroutineStyle | NativeStyle.

Definition handler_of (c : convention) (l : logic) : Express.handler :=
  match c with
  | ChainedStyle => Chained.handler l
  | CoroutineStyle => Coroutine.handler l
  | NativeStyle => Native.handler l
  end.

(** The error-handling stage: the three files define the same function. *)
Definition error_middleware : Express.error_handler :=
  fun er args => res_end (message er).

(** The sample program of a convention, with [l] as the logic of its route. *)
Definition app_of (c : convention) (l : logic) : Express.app :=
  Express.listen 3000
    (Express.use error_middleware
       (Express.get "/" (handler_of c l) Express.express)).

(** A request to the route of that program. *)
Definition serve (c : convention) (l : logic) : option world :=
  Express.request (app_of c l) Express.GET "/".

(** The logic of the sample route, for the results [good] and [bad] of the
    two tasks. *)
Definition sample (good bad : outcome value) : logic :=
  {| prologue := [];
     steps :=
       [ {| operation := good;
            continuation := fun result => [SWrite (to_string result ++ newline)] |};
         {| operation := bad;
            continuation := fun _ => [SWrite "will not make it here"] |} ] |}.

(** ** What happens to a handler, said on its logic *)

(** [completes b ws]: the block runs to its end, writing [ws] in order. *)
Inductive completes : block -> list string -> Prop :=
| completes_end : completes [] []
| completes_write chunk b ws :
    completes b ws -> completes (SWrite chunk :: b) (chunk :: ws).

(** [throws b ws e]: the block writes [ws], then throws [e]. *)
Inductive throws : block -> list string -> failure -> Prop :=
| throws_here e b : throws (SThrow e :: b) [] e
| throws_after chunk b ws e :
    throws b ws e -> throws (SWrite chunk :: b) (chunk :: ws) e.

(** [all_succeed ss ws]: every operation of [ss] fulfils and every statement
    runs; [ws] is what the steps write, in program order. *)
Inductive all_succeed : list step -> list string -> Prop :=
| succeed_end : all_succeed [] []
| succeed_step v k later ws ws' :
    completes (k v) ws ->
    all_succeed later ws' ->
    all_succeed ({| operation := Fulfilled v; continuation := k |} :: later)
      (ws ++ ws')%list.

(** [fails_at ss n e ws]: the operation of step [n] (counted from 1) is
    reached and rejects with [e]; [ws] is what the steps before it wrote. *)
Inductive fails_at : list step -> nat -> failure -> list string -> Prop :=
| fails_here e k later :
    fails_at ({| operation := Rejected e; continuation := k |} :: later) 1 e []
| fails_later v k later n e ws ws' :
    completes (k v) ws ->
    fails_at later n e ws' ->
    fails_at ({| operation := Fulfilled v; continuation := k |} :: later) (S n) e
      (ws ++ ws')%list.

(** The chunks of a list, one after the other. *)
Fixpoint joined (ws : list string) : string :=
  match ws with
  | [] => ""
  | chunk :: ws' => chunk ++ joined ws'
  end.

(** A function declared with [n] parameters binds the first [n] arguments;
    a missing one is [undefined]. *)
Definition params {A} (n : nat) (f : list jsarg -> A) : list jsarg -> A :=
  fun args => f (firstn n (args ++ repeat AUndefined n)).

(** ** The course of a handler, computed *)

(** What a block writes before it ends or throws, and the throw if any. *)
Fixpoint block_history (b : block) : list string * option failure :=
  match b with
  | [] => ([], None)
  | SWrite chunk :: b' =>
      let (ws, f) := block_history b' in (chunk :: ws, f)
  | SThrow e :: _ => ([], Some e)
  end.

(** The same for the steps: they stop at the first rejection or throw. *)
Fixpoint steps_history (ss : list step) : list string * option failure :=
  match ss with
  | [] => ([], None)
  | st :: later =>
      match operation st with
      | Rejected e => ([], Some e)
      | Fulfilled v =>
          match block_history (continuation st v) with
          | (ws, Some e) => (ws, Some e)
          | (ws, None) =>
              let (ws', f) := steps_history later in ((ws ++ ws')%list, f)
          end
      end
  end.

Definition history (l : logic) : list string * option failure :=
  match block_history (prologue l) with
  | (ws, Some e) => (ws, Some e)
  | (ws, None) =>
      let (ws', f) := steps_history (steps l) in ((ws ++ ws')%list, f)
  end.

(** The writes of a list, done one after the other. *)
Definition emit (ws : list string) (w : world) : world :=
  fold_left (fun w' chunk => snd (res_write chunk w')) ws w.

(** [next(e)] in a program whose only error-handling stage is
    [error_middleware]. *)
Definition report (e : failure) (w : world) : world :=
  snd (Express.forward [error_middleware] e (note_next e w)).

(** The state a request leaves, from the course of its handler. *)
Definition settle (h : list string * option failure) (w : world) : world :=
  match snd h with
  | None => emit (fst h) w
  | Some e => report e (emit (fst h) w)
  end.

Definition end_of (f : option failure) : outcome value :=
  match f with
  | None => Fulfilled VUndefined
  | Some e => Rejected e
  end.

Definition exit_of (f : option failure) : completion value :=
  match f with
  | None => Normal VUndefined
  | Some e => Abrupt e
  end.

(** The state after [p.catch(h)] has been dropped, for a promise [p] that
    ended as [f] in the state [w]. *)
Definition caught (h : jsarg) (f : option failure) (w : world) : world :=
  match f with
  | None => w
  | Some e =>
      match h with
      | AFn k =>
          match k e w with
          | (Normal _, w2) => w2
          | (Abrupt e', w2) => note_unhandled e' w2
          end
      | _ => note_unhandled e w
      end
  end.

(** The failure a call hands to the rest of the handler: the throw of the
    call, or the rejection of the promise it returned. *)
Definition awaited (task : sync (promise value)) : sync value :=
  started <- task ;; await started.

(** The route of each sample, from any state and for any pair of tasks:
    what a request does, statement by statement. *)
Definition sample_course (testUtils : TestUtils) (next : failure -> sync value)
  (w : world) : world :=
  match awaited (asyncTaskGood testUtils) w with
  | (Abrupt e, w1) => caught (AFn next) (Some e) w1
  | (Normal result, w1) =>
      match awaited (asyncTaskBad testUtils)
              (snd (res_write (to_string result ++ newline) w1)) with
      | (Abrupt e, w2) => caught (AFn next) (Some e) w2
      | (Normal _, w2) => snd (res_write "will not make it here" w2)
      end
  end.

(** The [next] of a program whose only error-handling stage is
    [error_middleware]: the three samples. *)
Definition sample_next : failure -> sync value :=
  fun er w => Express.forward [error_middleware] er (note_next er w).

(** A [testUtils] whose first task throws when it is called. *)
Definition throwing_utils : TestUtils :=
  {| asyncTaskGood := throw oh_no;
     asyncTaskBad := ret (settled (Rejected oh_no)) |}.

(** A handler that throws before its first asynchronous step. *)
Definition throws_first : logic :=
  {| prologue := [SThrow oh_no];
     steps := steps (sample (Fulfilled (VString "Hello World")) (Rejected oh_no)) |}.

(** What it is for a program to register one route, GET ['/'], and to
    listen on port 3000. *)
Definition one_route_on_3000 (a : Express.app) : Prop :=
  map (fun r => (Express.verb r, Express.path r)) (Express.routes a) =
    [(Express.GET, "/")] /\
  Express.port a = Some 3000%Z.

Definition is_undefined (a : jsarg) : bool :=
  match a with
  | AUndefined => true
  | _ => false
  end.

(** A statement that tells whether a fourth argument came in:
    [res.write(extra === undefined ? 'three' : 'four')]. *)
Definition probe (args : list jsarg) : sync value :=
  res_write (if is_undefined (arg 3 args) then "three" else "four").

Definition probe_async : list jsarg -> promise value :=
  async (fun args => probe args).

Definition probe_generator : list jsarg -> generator :=
  fun args => GDo (probe args) (fun _ => GReturn VUndefined).

Definition four_args : list jsarg :=
  [AReq; ARes; AFn (fun _ => ret VUndefined); AVal (VString "extra")].

(** ** The handlers of the article

    The article kept in the repository shows one route, a query followed
    by a conversion of its result, in the callback style and in the three
    promise styles.  Its tasks [queryDb] and [makeCsv] are not defined
    anywhere: they are parameters here.  The places where the article writes
    [// handle data] hold no statement. *)

Definition callable (a : jsarg) : bool :=
  match a with
  | AFn _ => true
  | _ => false
  end.

(** What calling a value that is not a function raises. *)
Definition not_a_function : failure :=
  {| message := "next is not a function";
     stack := "TypeError: next is not a function" |}.

(** [f(e)] for a value [f] that came in as an argument. *)
Definition invoke (f : jsarg) (e : failure) : sync value :=
  match f with
  | AFn k => k e
  | _ => throw not_a_function
  end.

(** The callback of a task in the style of Node: [function (err, data)],
    with [err] empty on success. *)
Definition node_callback : Type := option failure -> value -> sync value.

(** A task in that style takes its callback and returns at once. *)
Definition node_task : Type := node_callback -> sync value.

(** A task that ends as [o] calls its callback once, later, with the
    failure or with the value.  Its caller has returned by then: what the
    callback throws has no frame above it to catch it. *)
Definition calls_back (o : outcome value) : node_task :=
  fun cb w =>
    match
      match o with
      | Fulfilled v => cb None v w
      | Rejected e => cb (Some e) VUndefined w
      end
    with
    | (Normal _, w1) => (Normal VUndefined, w1)
    | (Abrupt e, w1) => (Normal VUndefined, note_unhandled e w1)
    end.

Module Article.


(** Lines 29-31, 49-51, 76-78: an error-handling middleware whose body is
    a comment. *)
Definition error_middleware : Express.error_handler :=
  fun err args => ret VUndefined.

(** Lines 37-48: every callback passes its failure to [next]. *)
Definition callback_handler (queryDb : node_task) (makeCsv : value -> node_task)
  : Express.handler :=
  fun args =>
    let next := arg 2 args in
    queryDb (fun err data =>
      match err with
      | Some e => invoke next e
      | None =>
          makeCsv data (fun err' csv =>
            match err' with
            | Some e => invoke next e
            | None => ret VUndefined
            end)
      end).

(** Lines 64-75: the promise chain. *)
Definition promise_handler (queryDb : sync (promise value))
  (makeCsv : value -> sync (promise value)) : Express.handler :=
  fun args =>
    let next := arg 2 args in
    started <- queryDb ;;
    discard
      (catch_
         (then_
            (then_ started
               (fun data =>
                  converted <- makeCsv data ;;
                  ret (RetPromise converted)))
            (fun csv => ret (RetValue VUndefined)))
         next).



End Article.


(** A task that does not touch the state of the request: its call throws
    the same failure whatever the state, or returns a promise that settles
    the same way whatever the state. *)
Definition quiet (task : sync (promise value)) : Prop :=
  (exists e : failure, forall w, task w = (Abrupt e, w)) \/
  (exists (p : promise value) (o : outcome value),
     (forall w, task w = (Normal p, w)) /\ (forall w, p w = (o, w))).

(** A [testUtils] whose first task rejects. *)
Definition failing_utils : TestUtils :=
  {| asyncTaskGood := ret (settled (Rejected oh_no));
     asyncTaskBad := ret (settled (Fulfilled VUndefined)) |}.

(** A [testUtils] whose second task throws when it is called. *)
Definition late_throwing_utils : TestUtils :=
  {| asyncTaskGood := ret (settled (Fulfilled (VString "Hello World")));
     asyncTaskBad := throw oh_no |}.

(** ** Strings and the response *)

Lemma append_assoc (a b c : string) : (a ++ b) ++ c = a ++ (b ++ c).
Proof. induction a as [|x a IH]; simpl; [reflexivity | now rewrite IH]. Qed.

Lemma append_empty_r (a : string) : a ++ "" = a.
Proof. induction a as [|x a IH]; simpl; [reflexivity | now rewrite IH]. Qed.

Lemma joined_app (u v : list string) : joined (u ++ v) = joined u ++ joined v.
Proof.
  induction u as [|chunk u IH]; simpl; [reflexivity|].
  now rewrite IH, append_assoc.
Qed.

Lemma emit_app (u v : list string) (w : world) :
  emit (u ++ v) w = emit v (emit u w).
Proof. unfold emit. apply fold_left_app. Qed.

Lemma emit_cons (chunk : string) (ws : list string) (w : world) :
  emit (chunk :: ws) w = emit ws (snd (res_write chunk w)).
Proof. reflexivity. Qed.

(** On an open response the writes add their chunks and nothing else. *)
Lemma emit_open (ws : list string) (w : world) :
  finished w = false ->
  emit ws w =
  {| body := body w ++ joined ws; finished := false; nexts := nexts w;
     reported := reported w; unhandled := unhandled w |}.
Proof.
  revert w. induction ws as [|chunk ws IH]; intros w Hw.
  - simpl. rewrite append_empty_r. destruct w; simpl in *; now subst.
  - rewrite emit_cons. unfold res_write at 1. simpl. rewrite Hw.
    rewrite IH by reflexivity. simpl. now rewrite append_assoc.
Qed.

(** On an open response [next(e)] reaches the stage once, which ends the
    response with the message. *)
Lemma report_open (e : failure) (w : world) :
  finished w = false ->
  report e w =
  {| body := body w ++ message e; finished := true; nexts := nexts w ++ [e];
     reported := reported w ++ [e]; unhandled := unhandled w |}.
Proof.
  intros Hw. unfold report, Express.forward, error_middleware, res_end. simpl.
  now rewrite Hw.
Qed.

(** The logs never shrink and the stage is entered once by [report]. *)
Lemma emit_logs (ws : list string) (w : world) :
  nexts (emit ws w) = nexts w /\ reported (emit ws w) = reported w /\
  unhandled (emit ws w) = unhandled w /\ finished (emit ws w) = finished w.
Proof.
  revert w. induction ws as [|chunk ws IH]; intros w; [now simpl|].
  rewrite emit_cons. destruct (IH (snd (res_write chunk w))) as (A & B & C & D).
  rewrite A, B, C, D. unfold res_write. simpl.
  destruct (finished w) eqn:Hw; simpl; auto.
Qed.

Lemma report_logs (e : failure) (w : world) :
  nexts (report e w) = (nexts w ++ [e])%list /\
  reported (report e w) = (reported w ++ [e])%list /\
  unhandled (report e w) = unhandled w /\ finished (report e w) = true.
Proof.
  unfold report, Express.forward, error_middleware, res_end. simpl.
  destruct (finished w) eqn:Hw; simpl; auto.
Qed.

(** ** The computed course agrees with the relations *)

Lemma completes_history (b : block) (ws : list string) :
  completes b ws -> block_history b = (ws, None).
Proof. induction 1 as [|chunk b ws _ IH]; simpl; [reflexivity | now rewrite IH]. Qed.

Lemma throws_history (b : block) (ws : list string) (e : failure) :
  throws b ws e -> block_history b = (ws, Some e).
Proof. induction 1 as [|chunk b ws e _ IH]; simpl; [reflexivity | now rewrite IH]. Qed.

Lemma all_succeed_history (ss : list step) (ws : list string) :
  all_succeed ss ws -> steps_history ss = (ws, None).
Proof.
  induction 1 as [|v k later ws ws' Hk _ IH]; simpl; [reflexivity|].
  now rewrite (completes_history _ _ Hk), IH.
Qed.

Lemma fails_at_history (ss : list step) (n : nat) (e : failure) (ws : list string) :
  fails_at ss n e ws -> steps_history ss = (ws, Some e).
Proof.
  induction 1 as [|v k later n e ws ws' Hk _ IH]; simpl; [reflexivity|].
  now rewrite (completes_history _ _ Hk), IH.
Qed.

(** ** Each convention follows the computed course *)

Lemma run_block_history (b : block) (w : world) :
  run_block b w =
  (exit_of (snd (block_history b)), emit (fst (block_history b)) w).
Proof.
  revert w. induction b as [|[chunk|e] b IH]; intros w; simpl; try reflexivity.
  unfold bind. simpl. rewrite IH.
  destruct (block_history b) as [ws f]. reflexivity.
Qed.

Lemma await_steps_history (ss : list step) (w : world) :
  Native.await_steps ss w =
  (exit_of (snd (steps_history ss)), emit (fst (steps_history ss)) w).
Proof.
  revert w. induction ss as [|[op k] later IH]; intros w; simpl; [reflexivity|].
  unfold bind, await, settled. destruct op as [v|e]; simpl; [|reflexivity].
  rewrite run_block_history.
  destruct (block_history (k v)) as [ws [e|]]; simpl; [reflexivity|].
  rewrite IH. destruct (steps_history later) as [ws' f]. simpl.
  now rewrite emit_app.
Qed.

Lemma gen_block_run (b : block) (rest : generator) (w : world) :
  Bluebird.run (Coroutine.gen_block b rest) w =
  match snd (block_history b) with
  | Some e => (Rejected e, emit (fst (block_history b)) w)
  | None => Bluebird.run rest (emit (fst (block_history b)) w)
  end.
Proof.
  revert w. induction b as [|[chunk|e] b IH]; intros w; simpl; try reflexivity.
  rewrite IH. destruct (block_history b) as [ws f]. reflexivity.
Qed.

Lemma gen_steps_run (ss : list step) (w : world) :
  Bluebird.run (Coroutine.gen_steps ss) w =
  (end_of (snd (steps_history ss)), emit (fst (steps_history ss)) w).
Proof.
  revert w. induction ss as [|[op k] later IH]; intros w; simpl; [reflexivity|].
  unfold settled. destruct op as [v|e]; simpl; [|reflexivity].
  rewrite gen_block_run.
  destruct (block_history (k v)) as [ws [e|]]; simpl; [reflexivity|].
  rewrite IH. destruct (steps_history later) as [ws' f]. simpl.
  now rewrite emit_app.
Qed.

(** The chain, whatever promise it starts from: a rejection passes through
    every [then]; a fulfilment runs the steps in order. *)
Lemma chain_run (later : list step) (p : promise value) (k : value -> block) (w : world) :
  Chained.chain p k later w =
  match p w with
  | (Rejected e, w1) => (Rejected e, w1)
  | (Fulfilled v, w1) =>
      let h := steps_history ({| operation := Fulfilled v; continuation := k |} :: later) in
      (end_of (snd h), emit (fst h) w1)
  end.
Proof.
  revert p k w. induction later as [|[op k'] later IH]; intros p k w; simpl.
  - unfold then_, bind. destruct (p w) as [[v|e] w1]; [|reflexivity].
    rewrite run_block_history.
    destruct (block_history (k v)) as [ws [e|]]; simpl; [reflexivity|].
    now rewrite app_nil_r.
  - rewrite IH. unfold then_, bind. destruct (p w) as [[v|e] w1]; [|reflexivity].
    rewrite run_block_history.
    destruct (block_history (k v)) as [ws [e|]]; simpl; [reflexivity|].
    unfold settled. destruct op as [v'|e']; simpl.
    + destruct (block_history (k' v')) as [ws1 [e1|]]; simpl.
      * rewrite emit_app. reflexivity.
      * destruct (steps_history later) as [ws2 f]. simpl.
        rewrite !emit_app. reflexivity.
    + rewrite app_nil_r. reflexivity.
Qed.

Lemma discard_catch (p : promise value) (h : jsarg) (f : option failure) (w w1 : world) :
  p w = (end_of f, w1) ->
  discard (catch_ p h) w = (Normal VUndefined, caught h f w1).
Proof.
  intros Hp. unfold discard, catch_. rewrite Hp.
  destruct f as [e|]; simpl; [|reflexivity].
  destruct h as [| | |k|v]; try reflexivity.
  destruct (k e w1) as [[v|e'] w2]; reflexivity.
Qed.

(** The handler of [promises.js]'s shape: a throw of the prologue leaves the
    function; past the prologue the function returns and the chain does the
    rest. *)
Lemma chained_handler_run (l : logic) (args : list jsarg) (w : world) :
  Chained.handler l args w =
  match snd (block_history (prologue l)) with
  | Some e => (Abrupt e, emit (fst (block_history (prologue l))) w)
  | None =>
      (Normal VUndefined,
       caught (arg 2 args) (snd (steps_history (steps l)))
         (emit (fst (steps_history (steps l)))
            (emit (fst (block_history (prologue l))) w)))
  end.
Proof.
  unfold Chained.handler, bind. rewrite run_block_history.
  destruct (block_history (prologue l)) as [ws0 [e|]]; simpl; [reflexivity|].
  destruct (steps l) as [|[op k] later] eqn:Hs; [reflexivity|].
  apply discard_catch. rewrite chain_run. unfold settled.
  destruct op as [v|e]; reflexivity.
Qed.

(** The wrapped generator always returns: the driver turns every failure of
    the body into a rejection. *)
Lemma coroutine_handler_run (l : logic) (args : list jsarg) (w : world) :
  Coroutine.handler l args w =
  (Normal VUndefined,
   caught (arg 2 args) (snd (history l)) (emit (fst (history l)) w)).
Proof.
  unfold Coroutine.handler, Generators.wrap. apply discard_catch.
  unfold Bluebird.coroutine, Coroutine.genFn, history.
  rewrite gen_block_run.
  destruct (block_history (prologue l)) as [ws0 [e|]]; simpl; [reflexivity|].
  rewrite gen_steps_run.
  destruct (steps_history (steps l)) as [ws f]. simpl.
  now rewrite emit_app.
Qed.

(** So does the wrapped [async] function. *)
Lemma native_handler_run (l : logic) (args : list jsarg) (w : world) :
  Native.handler l args w =
  (Normal VUndefined,
   caught (arg 2 args) (snd (history l)) (emit (fst (history l)) w)).
Proof.
  unfold Native.handler, AsyncAwait.wrap. apply discard_catch.
  unfold Native.fn, async, bind, history.
  rewrite run_block_history.
  destruct (block_history (prologue l)) as [ws0 [e|]]; simpl; [reflexivity|].
  rewrite await_steps_history.
  destruct (steps_history (steps l)) as [ws [e|]]; simpl;
    now rewrite emit_app.
Qed.

Lemma next_report (c : convention) (l : logic) (e : failure) (w : world) :
  Express.next (app_of c l) e w = (Normal VUndefined, report e w).
Proof.
  unfold Express.next, report. simpl.
  unfold error_middleware, res_end. reflexivity.
Qed.

Lemma route_found (c : convention) (l : logic) :
  find (Express.matches Express.GET "/") (Express.routes (app_of c l)) =
  Some {| Express.verb := Express.GET; Express.path := "/";
          Express.action := handler_of c l |}.
Proof. reflexivity. Qed.

(** A request to the route, from any state of the response: every
    convention leaves the state the course of the logic determines. *)
Lemma dispatch_settle (c : convention) (l : logic) (w : world) :
  Express.dispatch (app_of c l) Express.GET "/" w = Some (settle (history l) w).
Proof.
  unfold Express.dispatch. rewrite route_found. cbn [Express.action].
  unfold settle, Express.call_args, arg. cbn [nth].
  destruct c; cbn [handler_of].
  - rewrite chained_handler_run. unfold history, arg. cbn [nth].
    destruct (block_history (prologue l)) as [ws0 [e|]]; cbn [fst snd].
    + now rewrite next_report.
    + destruct (steps_history (steps l)) as [ws [e|]]; cbn [fst snd caught].
      * rewrite next_report, emit_app. reflexivity.
      * rewrite emit_app. reflexivity.
  - rewrite coroutine_handler_run. unfold arg. cbn [nth].
    destruct (history l) as [ws [e|]]; cbn [fst snd caught]; [|reflexivity].
    now rewrite next_report.
  - rewrite native_handler_run. unfold arg. cbn [nth].
    destruct (history l) as [ws [e|]]; cbn [fst snd caught]; [|reflexivity].
    now rewrite next_report.
Qed.

Lemma serve_settle (c : convention) (l : logic) :
  serve c l = Some (settle (history l) fresh).
Proof. apply dispatch_settle. Qed.

(** ** The sample programs are the conventions at the sample logic *)

Lemma promises_handler_sample (good bad : outcome value) :
  Promises.handler {| asyncTaskGood := ret (settled good); asyncTaskBad := ret (settled bad) |} =
  Chained.handler (sample good bad).
Proof. reflexivity. Qed.

Lemma generators_handler_sample (good bad : outcome value) :
  Generators.wrap
    (Generators.route_body {| asyncTaskGood := ret (settled good); asyncTaskBad := ret (settled bad) |}) =
  Coroutine.handler (sample good bad).
Proof. reflexivity. Qed.

Lemma asyncAwait_handler_sample (good bad : outcome value) :
  AsyncAwait.wrap
    (AsyncAwait.route_body {| asyncTaskGood := ret (settled good); asyncTaskBad := ret (settled bad) |}) =
  Native.handler (sample good bad).
Proof. reflexivity. Qed.

Lemma sample_next_returns (e : failure) (w : world) :
  sample_next e w = (Normal VUndefined, report e w).
Proof. reflexivity. Qed.

(** In [promises.js] the first call is made by the handler itself: its
    throw is the handler's. *)
Lemma promises_handler_course (tu : TestUtils) (rq rs : jsarg)
  (next : failure -> sync value) (w : world) :
  Promises.handler tu [rq; rs; AFn next] w =
  match asyncTaskGood tu w with
  | (Abrupt e, w1) => (Abrupt e, w1)
  | (Normal _, _) => (Normal VUndefined, sample_course tu next w)
  end.
Proof.
  unfold Promises.handler, sample_course, awaited, await, discard, catch_, then_,
    bind, arg, caught.
  cbn [nth]. destruct (asyncTaskGood tu w) as [[p|e] w1]; [|reflexivity].
  destruct (p w1) as [[result|e] w2]; cbn.
  - destruct (asyncTaskBad tu _) as [[q|e] w3]; cbn.
    + destruct (q w3) as [[v|e] w4]; cbn; [reflexivity|].
      destruct (next e w4) as [[v|e'] w5]; reflexivity.
    + destruct (next e w3) as [[v|e'] w5]; reflexivity.
  - destruct (next e w2) as [[v|e'] w5]; reflexivity.
Qed.

Lemma generators_handler_course (tu : TestUtils) (rq rs : jsarg)
  (next : failure -> sync value) (w : world) :
  Generators.wrap (Generators.route_body tu) [rq; rs; AFn next] w =
  (Normal VUndefined, sample_course tu next w).
Proof.
  unfold Generators.wrap, Generators.route_body, Bluebird.coroutine, sample_course,
    awaited, await, bind, discard, catch_, arg, caught.
  cbn [nth Bluebird.run]. destruct (asyncTaskGood tu w) as [[p|e] w1].
  - destruct (p w1) as [[result|e] w2]; cbn.
    + destruct (asyncTaskBad tu _) as [[q|e] w3]; cbn.
      * destruct (q w3) as [[v|e] w4]; cbn; [reflexivity|].
        destruct (next e w4) as [[v|e'] w5]; reflexivity.
      * destruct (next e w3) as [[v|e'] w5]; reflexivity.
    + destruct (next e w2) as [[v|e'] w5]; reflexivity.
  - destruct (next e w1) as [[v|e'] w5]; reflexivity.
Qed.

Lemma asyncAwait_handler_course (tu : TestUtils) (rq rs : jsarg)
  (next : failure -> sync value) (w : world) :
  AsyncAwait.wrap (AsyncAwait.route_body tu) [rq; rs; AFn next] w =
  (Normal VUndefined, sample_course tu next w).
Proof.
  unfold AsyncAwait.wrap, AsyncAwait.route_body, async, sample_course,
    awaited, await, discard, catch_, bind, arg, caught.
  cbn [nth]. destruct (asyncTaskGood tu w) as [[p|e] w1].
  - destruct (p w1) as [[result|e] w2]; cbn.
    + destruct (asyncTaskBad tu _) as [[q|e] w3]; cbn.
      * destruct (q w3) as [[v|e] w4]; cbn; [reflexivity|].
        destruct (next e w4) as [[v|e'] w5]; reflexivity.
      * destruct (next e w3) as [[v|e'] w5]; reflexivity.
    + destruct (next e w2) as [[v|e'] w5]; reflexivity.
  - destruct (next e w1) as [[v|e'] w5]; reflexivity.
Qed.

Lemma promises_route (tu : TestUtils) :
  find (Express.matches Express.GET "/") (Express.routes (Promises.app tu)) =
  Some {| Express.verb := Express.GET; Express.path := "/";
          Express.action := Promises.handler tu |}.
Proof. reflexivity. Qed.

Lemma generators_route (tu : TestUtils) :
  find (Express.matches Express.GET "/") (Express.routes (Generators.app tu)) =
  Some {| Express.verb := Express.GET; Express.path := "/";
          Express.action := Generators.wrap (Generators.route_body tu) |}.
Proof. reflexivity. Qed.

Lemma asyncAwait_route (tu : TestUtils) :
  find (Express.matches Express.GET "/") (Express.routes (AsyncAwait.app tu)) =
  Some {| Express.verb := Express.GET; Express.path := "/";
          Express.action := AsyncAwait.wrap (AsyncAwait.route_body tu) |}.
Proof. reflexivity. Qed.

(** A request to the route of each sample program. *)
Lemma promises_dispatch (tu : TestUtils) (w : world) :
  Express.dispatch (Promises.app tu) Express.GET "/" w =
  Some (sample_course tu sample_next w).
Proof.
  unfold Express.dispatch. rewrite promises_route. cbn [Express.action].
  unfold Express.call_args. rewrite promises_handler_course.
  change (Express.next (Promises.app tu)) with sample_next.
  unfold sample_course, awaited, bind.
  destruct (asyncTaskGood tu w) as [[p|e] w1]; [reflexivity|].
  cbn [caught]. now rewrite sample_next_returns.
Qed.

Lemma generators_dispatch (tu : TestUtils) (w : world) :
  Express.dispatch (Generators.app tu) Express.GET "/" w =
  Some (sample_course tu sample_next w).
Proof.
  unfold Express.dispatch. rewrite generators_route. cbn [Express.action].
  unfold Express.call_args. now rewrite generators_handler_course.
Qed.

Lemma asyncAwait_dispatch (tu : TestUtils) (w : world) :
  Express.dispatch (AsyncAwait.app tu) Express.GET "/" w =
  Some (sample_course tu sample_next w).
Proof.
  unfold Express.dispatch. rewrite asyncAwait_route. cbn [Express.action].
  unfold Express.call_args. now rewrite asyncAwait_handler_course.
Qed.

(** The state a request leaves on a fresh response. *)
Lemma settle_fresh_done (ws : list string) :
  settle (ws, None) fresh =
  {| body := joined ws; finished := false; nexts := []; reported := [];
     unhandled := [] |}.
Proof. unfold settle. cbn [fst snd]. now rewrite emit_open. Qed.

Lemma settle_fresh_failed (ws : list string) (e : failure) :
  settle (ws, Some e) fresh =
  {| body := joined ws ++ message e; finished := true; nexts := [e];
     reported := [e]; unhandled := [] |}.
Proof.
  unfold settle. cbn [fst snd]. rewrite emit_open by reflexivity.
  now rewrite report_open.
Qed.

Lemma history_succeeds (l : logic) (ws0 ws : list string) :
  completes (prologue l) ws0 -> all_succeed (steps l) ws ->
  history l = ((ws0 ++ ws)%list, None).
Proof.
  intros H0 H1. unfold history.
  now rewrite (completes_history _ _ H0), (all_succeed_history _ _ H1).
Qed.

Lemma history_fails (l : logic) (n : nat) (e : failure) (ws0 ws : list string) :
  completes (prologue l) ws0 -> fails_at (steps l) n e ws ->
  history l = ((ws0 ++ ws)%list, Some e).
Proof.
  intros H0 H1. unfold history.
  now rewrite (completes_history _ _ H0), (fails_at_history _ _ _ _ H1).
Qed.

Lemma history_throws (l : logic) (e : failure) (ws : list string) :
  throws (prologue l) ws e -> history l = (ws, Some e).
Proof. intros H. unfold history. now rewrite (throws_history _ _ _ H). Qed.

(** ** The claims *)

Lemma sample_course_fails (tu : TestUtils) (next : failure -> sync value)
  (e : failure) (w : world) :
  resolves_with (asyncTaskGood tu) (VString "Hello World") ->
  rejects_with (asyncTaskBad tu) e ->
  sample_course tu next w =
  caught (AFn next) (Some e) (snd (res_write ("Hello World" ++ newline) w)).
Proof.
  intros (p & Hcall & Hp) (q & Hcall' & Hq).
  unfold sample_course, awaited, await, bind.
  rewrite Hcall, Hp. cbn [to_string]. now rewrite Hcall', Hq.
Qed.

(** C1.  A GET request to the route ['/'] of each of the three programs is
    answered with the body ["Hello World\n"] followed at once by ["oh no!"],
    and the text ["will not make it here"] occurs nowhere in it, when the
    first task resolves with ["Hello World"] and the second rejects with a
    failure whose message is ["oh no!"]. *)
Theorem sample_request_body (tu : TestUtils) (e : failure) :
  resolves_with (asyncTaskGood tu) (VString "Hello World") ->
  rejects_with (asyncTaskBad tu) e ->
  message e = "oh no!" ->
  forall a : Express.app,
    a = Promises.app tu \/ a = Generators.app tu \/ a = AsyncAwait.app tu ->
    exists w : world,
      Express.request a Express.GET "/" = Some w /\
      body w = "Hello World" ++ newline ++ "oh no!" /\
      index 0 "will not make it here" (body w) = None.
Proof.
  intros Hgood Hbad Hmsg a Ha.
  assert (Hw : Express.request a Express.GET "/" =
               Some {| body := "Hello World" ++ newline ++ message e;
                       finished := true; nexts := [e]; reported := [e];
                       unhandled := [] |}).
  { unfold Express.request.
    destruct Ha as [-> | [-> | ->]];
      [rewrite promises_dispatch | rewrite generators_dispatch
       | rewrite asyncAwait_dispatch];
      rewrite (sample_course_fails _ _ e) by assumption; reflexivity. }
  eexists. split; [exact Hw|]. cbn [body]. rewrite Hmsg. split; reflexivity.
Qed.

Lemma sample_request_body_witness :
  resolves_with (asyncTaskGood testUtils) (VString "Hello World") /\
  rejects_with (asyncTaskBad testUtils) oh_no /\
  message oh_no = "oh no!" /\
  exists w : world,
    Express.request (Generators.app testUtils) Express.GET "/" = Some w /\
    body w = "Hello World" ++ newline ++ "oh no!" /\
    index 0 "will not make it here" (body w) = None.
Proof.
  assert (Hgood : resolves_with (asyncTaskGood testUtils) (VString "Hello World")).
  { exists (settled (Fulfilled (VString "Hello World"))).
    split; intro w; reflexivity. }
  assert (Hbad : rejects_with (asyncTaskBad testUtils) oh_no).
  { exists (settled (Rejected oh_no)). split; intro w; reflexivity. }
  split; [exact Hgood|]. split; [exact Hbad|]. split; [reflexivity|].
  apply (sample_request_body testUtils oh_no Hgood Hbad eq_refl).
  right; left; reflexivity.
Defined.

(** C2.  When the operation of step [n] of a handler rejects with [e], the
    body of the response is made of the writes issued before that step, in
    order, followed by the message the error-handling stage ends it with: no
    later write is in it.  The stage is invoked once, the next-stage callback
    is called once, both with [e] itself, and nothing is left unhandled.
    This holds in each of the three conventions. *)
Theorem failure_is_forwarded (c : convention) (l : logic) (n : nat) (e : failure)
  (ws0 ws : list string) :
  completes (prologue l) ws0 ->
  fails_at (steps l) n e ws ->
  exists w : world,
    serve c l = Some w /\
    body w = joined (ws0 ++ ws) ++ message e /\
    reported w = [e] /\ nexts w = [e] /\ unhandled w = [].
Proof.
  intros H0 H1. rewrite serve_settle, (history_fails l n e ws0 ws H0 H1).
  rewrite settle_fresh_failed. eexists. split; [reflexivity|]. now cbn.
Qed.

Lemma failure_is_forwarded_witness :
  exists w : world,
    serve ChainedStyle (sample (Fulfilled (VString "Hello World")) (Rejected oh_no)) = Some w /\
    body w = "Hello World" ++ newline ++ "oh no!" /\
    reported w = [oh_no] /\ nexts w = [oh_no] /\ unhandled w = [].
Proof.
  apply (failure_is_forwarded ChainedStyle
           (sample (Fulfilled (VString "Hello World")) (Rejected oh_no)) 2 oh_no
           [] ["Hello World" ++ newline]).
  - constructor.
  - apply (fails_later (VString "Hello World") _ _ 1 oh_no
             ["Hello World" ++ newline] []).
    + repeat constructor.
    + constructor.
Defined.

(** C7.  When every operation of a handler fulfils and every statement runs,
    the body of the response is the concatenation, in program order, of what
    the handler wrote, and the error-handling stage is not invoked.  This
    holds in each of the three conventions. *)
Theorem success_path (c : convention) (l : logic) (ws0 ws : list string) :
  completes (prologue l) ws0 ->
  all_succeed (steps l) ws ->
  exists w : world,
    serve c l = Some w /\
    body w = joined (ws0 ++ ws) /\
    reported w = [].
Proof.
  intros H0 H1. rewrite serve_settle, (history_succeeds l ws0 ws H0 H1).
  rewrite settle_fresh_done. eexists. split; [reflexivity|]. now cbn.
Qed.

Lemma success_path_witness :
  exists w : world,
    serve CoroutineStyle
      (sample (Fulfilled (VString "Hello World")) (Fulfilled VUndefined)) = Some w /\
    body w = "Hello World" ++ newline ++ "will not make it here" /\
    reported w = [].
Proof.
  apply (success_path CoroutineStyle
           (sample (Fulfilled (VString "Hello World")) (Fulfilled VUndefined))
           [] [("Hello World" ++ newline)%string; "will not make it here"]).
  - constructor.
  - apply (succeed_step (VString "Hello World") _ _ ["Hello World" ++ newline]
             ["will not make it here"]).
    + repeat constructor.
    + apply (succeed_step VUndefined _ [] ["will not make it here"] []).
      * repeat constructor.
      * constructor.
Defined.

(** C4.  Whatever the steps of a handler and wherever one fails, a request
    invokes the error-handling stage at most once, and calls the next-stage
    callback at most once, in each of the three conventions; this is so from
    any state of the logs, which grow by one entry at most. *)
Theorem at_most_one_report (c : convention) (l : logic) :
  (exists w : world,
     serve c l = Some w /\ length (reported w) <= 1 /\ length (nexts w) <= 1) /\
  (forall w0 : world, exists w : world,
     Express.dispatch (app_of c l) Express.GET "/" w0 = Some w /\
     length (reported w) <= S (length (reported w0)) /\
     length (nexts w) <= S (length (nexts w0))).
Proof.
  split.
  - rewrite serve_settle. eexists. split; [reflexivity|].
    destruct (history l) as [ws [e|]].
    + rewrite settle_fresh_failed. cbn. lia.
    + rewrite settle_fresh_done. cbn. lia.
  - intros w0. rewrite dispatch_settle. eexists. split; [reflexivity|].
    unfold settle. destruct (history l) as [ws [e|]]; cbn [fst snd].
    + destruct (report_logs e (emit ws w0)) as (A & B & _).
      destruct (emit_logs ws w0) as (A' & B' & _).
      rewrite A, B, A', B', !length_app. cbn. lia.
    + destruct (emit_logs ws w0) as (A' & B' & _). rewrite A', B'. lia.
Qed.

(** C5.  One handler logic, expressed in the chained, the coroutine and the
    native convention, is observed the same: from the same state a request
    leaves the same response body and the same invocations of the
    error-handling stage (the same state altogether).  The three sample
    routes, for any pair of tasks, are observed the same too. *)
Theorem conventions_agree (l : logic) (c1 c2 : convention) (w0 : world) :
  (exists w : world,
     Express.dispatch (app_of c1 l) Express.GET "/" w0 = Some w /\
     Express.dispatch (app_of c2 l) Express.GET "/" w0 = Some w) /\
  (forall tu : TestUtils,
     Express.dispatch (Promises.app tu) Express.GET "/" w0 =
     Express.dispatch (Generators.app tu) Express.GET "/" w0 /\
     Express.dispatch (Generators.app tu) Express.GET "/" w0 =
     Express.dispatch (AsyncAwait.app tu) Express.GET "/" w0).
Proof.
  split.
  - exists (settle (history l) w0). now rewrite !dispatch_settle.
  - intros tu.
    rewrite promises_dispatch, generators_dispatch, asyncAwait_dispatch.
    split; reflexivity.
Qed.

(** C3, as the code has it.  A handler that throws [e] before any
    asynchronous step still brings [e] to the error-handling stage, which is
    invoked once with it, and nothing is left unhandled, in each of the three
    conventions.  In the coroutine and the native convention the wrapped
    function itself returns: the driver, or the [async] function, has turned
    the throw into a rejection that [.catch(next)] forwards.  In the chained
    convention the handler has no catching scope of its own: the throw leaves
    the handler, and it is the framework that catches it and calls [next].
    The three sample routes behave so when the call of the first task
    throws. *)
Theorem early_throw_is_reported (c : convention) (l : logic) (ws : list string)
  (e : failure) :
  throws (prologue l) ws e ->
  (exists w : world,
     serve c l = Some w /\
     reported w = [e] /\ nexts w = [e] /\ unhandled w = [] /\
     body w = joined ws ++ message e) /\
  (forall (args : list jsarg) (w0 : world),
     fst (handler_of c l args w0) =
     match c with
     | ChainedStyle => Abrupt e
     | CoroutineStyle | NativeStyle => Normal VUndefined
     end) /\
  (forall (tu : TestUtils) (rq rs : jsarg) (next : failure -> sync value) (w0 : world),
     asyncTaskGood tu w0 = (Abrupt e, w0) ->
     fst (Promises.handler tu [rq; rs; AFn next] w0) = Abrupt e /\
     fst (Generators.wrap (Generators.route_body tu) [rq; rs; AFn next] w0) =
       Normal VUndefined /\
     fst (AsyncAwait.wrap (AsyncAwait.route_body tu) [rq; rs; AFn next] w0) =
       Normal VUndefined /\
     Express.dispatch (Promises.app tu) Express.GET "/" w0 = Some (report e w0) /\
     Express.dispatch (Generators.app tu) Express.GET "/" w0 = Some (report e w0) /\
     Express.dispatch (AsyncAwait.app tu) Express.GET "/" w0 = Some (report e w0)).
Proof.
  intros H. split; [|split].
  - rewrite serve_settle, (history_throws l e ws H), settle_fresh_failed.
    eexists. split; [reflexivity|]. now cbn.
  - intros args w0. destruct c; cbn [handler_of].
    + rewrite chained_handler_run, (throws_history _ _ _ H). reflexivity.
    + rewrite coroutine_handler_run. reflexivity.
    + rewrite native_handler_run. reflexivity.
  - intros tu rq rs next w0 Hcall.
    rewrite promises_handler_course, generators_handler_course,
      asyncAwait_handler_course, Hcall.
    rewrite promises_dispatch, generators_dispatch, asyncAwait_dispatch.
    unfold sample_course, awaited, bind. rewrite Hcall. cbn [caught].
    rewrite sample_next_returns. repeat split.
Qed.

Lemma early_throw_is_reported_witness :
  (exists w : world,
     serve CoroutineStyle throws_first = Some w /\
     reported w = [oh_no] /\ nexts w = [oh_no] /\ unhandled w = [] /\
     body w = "oh no!") /\
  (forall (args : list jsarg) (w0 : world),
     fst (handler_of CoroutineStyle throws_first args w0) = Normal VUndefined) /\
  Express.dispatch (Promises.app throwing_utils) Express.GET "/" fresh =
    Some (report oh_no fresh).
Proof.
  destruct (early_throw_is_reported CoroutineStyle throws_first [] oh_no
              (throws_here oh_no _)) as (A & B & C).
  split; [exact A|]. split; [exact B|].
  apply (C throwing_utils AReq ARes sample_next fresh). reflexivity.
Defined.

(** C3, as it is stated, fails in the chained convention.  The handler of
    [promises.js], called the way the framework calls it with a first task
    that throws, completes abruptly: nothing around the call catches.  So
    does any handler of that shape that starts with a [throw]. *)
Lemma chained_throw_leaves_handler :
  fst (Promises.handler throwing_utils
         (Express.call_args (Promises.app throwing_utils)) fresh) = Abrupt oh_no /\
  throws (prologue throws_first) [] oh_no /\
  fst (Chained.handler throws_first
         (Express.call_args (app_of ChainedStyle throws_first)) fresh) = Abrupt oh_no /\
  ~ (exists v : value,
       fst (Promises.handler throwing_utils
              (Express.call_args (Promises.app throwing_utils)) fresh) = Normal v).
Proof.
  split; [reflexivity|]. split; [apply throws_here|]. split; [reflexivity|].
  intros [v Hv]. cbn in Hv. discriminate Hv.
Qed.

(** C6.  The error-handling stage of each program, invoked with a failure
    on a response still open, ends the response with the message of the
    failure added to the body, and with nothing else: the stack is not
    read, and no log changes inside the stage. *)
Theorem error_stage_ends_with_message (mw : Express.error_handler) (er : failure)
  (args : list jsarg) (w : world) :
  mw = Promises.error_middleware \/ mw = Generators.error_middleware \/
  mw = AsyncAwait.error_middleware ->
  finished w = false ->
  mw er args w =
    (Normal VUndefined,
     {| body := body w ++ message er; finished := true; nexts := nexts w;
        reported := reported w; unhandled := unhandled w |}) /\
  (forall stack' : string,
     mw {| message := message er; stack := stack' |} args w = mw er args w).
Proof.
  intros Hmw Hw.
  assert (E : mw = error_middleware) by (destruct Hmw as [-> | [-> | ->]]; reflexivity).
  subst mw. unfold error_middleware, res_end. cbn [message]. rewrite Hw.
  split; [reflexivity|]. intros stack'. reflexivity.
Qed.

Lemma error_stage_ends_with_message_witness :
  finished (snd (res_write ("Hello World" ++ newline) fresh)) = false /\
  fst (Promises.error_middleware oh_no [AReq; ARes; AUndefined]
         (snd (res_write ("Hello World" ++ newline) fresh))) = Normal VUndefined /\
  body (snd (Promises.error_middleware oh_no [AReq; ARes; AUndefined]
               (snd (res_write ("Hello World" ++ newline) fresh)))) =
    "Hello World" ++ newline ++ "oh no!".
Proof.
  split; [reflexivity|].
  pose proof (proj1 (error_stage_ends_with_message Promises.error_middleware oh_no
                [AReq; ARes; AUndefined]
                (snd (res_write ("Hello World" ++ newline) fresh))
                (or_introl eq_refl) eq_refl)) as H.
  rewrite H. split; reflexivity.
Defined.

(** C8.  Each of the three programs registers one route and no other, with
    method GET and path ['/'], and listens on port 3000. *)
Theorem one_route_port_3000 (tu : TestUtils) :
  one_route_on_3000 (Promises.app tu) /\
  one_route_on_3000 (Generators.app tu) /\
  one_route_on_3000 (AsyncAwait.app tu).
Proof. repeat split. Qed.

(** C9.  On the path where every step succeeds the handler, wrapped or
    not, returns having done the writes and nothing else, whatever it was
    given as [next]: the callback is not called.  The request leaves the
    response written and not ended.  In general a response is ended only
    when the error-handling stage has been invoked. *)
Theorem success_leaves_response_open (c : convention) (l : logic)
  (ws0 ws : list string) :
  completes (prologue l) ws0 ->
  all_succeed (steps l) ws ->
  (forall (args : list jsarg) (w0 : world),
     handler_of c l args w0 = (Normal VUndefined, emit (ws0 ++ ws) w0)) /\
  serve c l =
    Some {| body := joined (ws0 ++ ws); finished := false; nexts := [];
            reported := []; unhandled := [] |} /\
  (forall (c' : convention) (l' : logic) (w' : world),
     serve c' l' = Some w' -> finished w' = true -> reported w' <> []).
Proof.
  intros H0 H1. split; [|split].
  - intros args w0. destruct c; cbn [handler_of].
    + rewrite chained_handler_run, (completes_history _ _ H0),
        (all_succeed_history _ _ H1). cbn [fst snd caught].
      now rewrite emit_app.
    + rewrite coroutine_handler_run, (history_succeeds l ws0 ws H0 H1). reflexivity.
    + rewrite native_handler_run, (history_succeeds l ws0 ws H0 H1). reflexivity.
  - now rewrite serve_settle, (history_succeeds l ws0 ws H0 H1), settle_fresh_done.
  - intros c' l' w' Hs Hf. rewrite serve_settle in Hs.
    destruct (history l') as [ws' [e|]].
    + rewrite settle_fresh_failed in Hs. injection Hs as <-. discriminate.
    + rewrite settle_fresh_done in Hs. injection Hs as <-. discriminate Hf.
Qed.

Lemma success_leaves_response_open_witness :
  serve NativeStyle
    (sample (Fulfilled (VString "Hello World")) (Fulfilled VUndefined)) =
  Some {| body := "Hello World" ++ newline ++ "will not make it here";
          finished := false; nexts := []; reported := []; unhandled := [] |}.
Proof.
  apply (success_leaves_response_open NativeStyle
           (sample (Fulfilled (VString "Hello World")) (Fulfilled VUndefined))
           [] [("Hello World" ++ newline)%string; "will not make it here"]).
  - constructor.
  - apply (succeed_step (VString "Hello World") _ _ [("Hello World" ++ newline)%string]
             ["will not make it here"]).
    + repeat constructor.
    + apply (succeed_step VUndefined _ [] ["will not make it here"] []).
      * repeat constructor.
      * constructor.
Defined.

(** C10.  The wrapper of [asyncAwait.js] calls the wrapped function with
    the very list of arguments it received and, when the promise of that
    call rejects, invokes the third argument of the list with the reason;
    this is so for every wrapped function, however many parameters it
    declares.  The wrapper of [generators.js] passes on three arguments,
    the first three of the call, and no more: a fourth argument reaches the
    handler under the first wrapper and not under the second. *)
Theorem wrap_argument_lists (fn : list jsarg -> promise value) (args : list jsarg)
  (k : failure -> sync value) (e : failure) (w w1 : world) :
  arg 2 args = AFn k ->
  fn args w = (Rejected e, w1) ->
  AsyncAwait.wrap fn args w =
    (Normal VUndefined,
     match k e w1 with
     | (Normal _, w2) => w2
     | (Abrupt e', w2) => note_unhandled e' w2
     end) /\
  (forall (genFn : list jsarg -> generator) (w0 : world),
     Generators.wrap genFn args w0 =
     Generators.wrap genFn [arg 0 args; arg 1 args; arg 2 args] w0) /\
  (forall (genFn genFn' : list jsarg -> generator) (w0 : world),
     (forall rq rs nx : jsarg, genFn [rq; rs; nx] = genFn' [rq; rs; nx]) ->
     Generators.wrap genFn args w0 = Generators.wrap genFn' args w0) /\
  body (snd (AsyncAwait.wrap probe_async four_args fresh)) = "four" /\
  body (snd (Generators.wrap probe_generator four_args fresh)) = "three".
Proof.
  intros Hk Hfn. split; [|split; [|split; [|split]]].
  - unfold AsyncAwait.wrap, discard, catch_. rewrite Hfn, Hk.
    destruct (k e w1) as [[v|e'] w2]; reflexivity.
  - intros genFn w0. reflexivity.
  - intros genFn genFn' w0 Hsame.
    unfold Generators.wrap, Bluebird.coroutine. now rewrite Hsame.
  - reflexivity.
  - reflexivity.
Qed.

Lemma wrap_argument_lists_witness :
  AsyncAwait.wrap (async (params 2 (fun _ => throw oh_no)))
    [AReq; ARes; AFn (fun er => res_end (message er)); AVal VUndefined] fresh =
  (Normal VUndefined,
   {| body := "oh no!"; finished := true; nexts := []; reported := [];
      unhandled := [] |}).
Proof.
  apply (wrap_argument_lists (async (params 2 (fun _ => throw oh_no)))
           [AReq; ARes; AFn (fun er => res_end (message er)); AVal VUndefined]
           (fun er => res_end (message er)) oh_no fresh fresh);
    reflexivity.
Defined.

(** ** Further properties of the three programs *)

(** [next] hands the failure over and comes back: it never throws into
    the code that called it. *)
Lemma forward_returns (stages : list Express.error_handler) (e : failure) (w : world) :
  exists v : value, fst (Express.forward stages e w) = Normal v.
Proof.
  revert e w. induction stages as [|h later IH]; intros e w; cbn [Express.forward].
  - now exists VUndefined.
  - destruct (h e _ (note_reported e w)) as [[v|e'] w1]; [now exists v | apply IH].
Qed.

Lemma caught_next (a : Express.app) (e : failure) (w : world) :
  caught (AFn (Express.next a)) (Some e) w = snd (Express.next a e w).
Proof.
  cbn [caught]. unfold Express.next.
  destruct (forward_returns (Express.error_stages a) e (note_next e w)) as [v Hv].
  destruct (Express.forward _ e _) as [[v'|e'] w1]; [reflexivity | discriminate Hv].
Qed.

Lemma sample_course_ext (tu : TestUtils) (next next' : failure -> sync value) (w : world) :
  (forall e w', next e w' = next' e w') ->
  sample_course tu next w = sample_course tu next' w.
Proof.
  intros Hn. unfold sample_course, caught.
  destruct (awaited (asyncTaskGood tu) w) as [[result|e] w1]; [|now rewrite Hn].
  destruct (awaited (asyncTaskBad tu) _) as [[v|e] w2]; [reflexivity | now rewrite Hn].
Qed.

(** A request that is not GET ['/'] matches no route of a program whose
    only route is that one. *)
Lemma no_other_route (a : Express.app) (h : Express.handler) (m : Express.method)
  (p : string) (w : world) :
  Express.routes a =
    [{| Express.verb := Express.GET; Express.path := "/"; Express.action := h |}] ->
  m <> Express.GET \/ p <> "/" ->
  Express.dispatch a m p w = None.
Proof.
  intros Hr Hmp. unfold Express.dispatch. rewrite Hr. cbn [find].
  unfold Express.matches. cbn [Express.verb Express.path].
  destruct Hmp as [Hm | Hp].
  - destruct m; try reflexivity. now elim Hm.
  - apply String.eqb_neq in Hp. rewrite Hp, andb_false_r. reflexivity.
Qed.

(** X1.  When the first task rejects, the handler of each program writes
    nothing and does not start the second task, whatever that task is: the
    body of the response is the message of the failure alone, and the
    error-handling stage has been invoked once, with that failure. *)
Theorem first_rejection_skips_the_rest (tu : TestUtils) (e : failure)
  (a : Express.app) :
  rejects_with (asyncTaskGood tu) e ->
  a = Promises.app tu \/ a = Generators.app tu \/ a = AsyncAwait.app tu ->
  Express.request a Express.GET "/" =
    Some {| body := message e; finished := true; nexts := [e]; reported := [e];
            unhandled := [] |}.
Proof.
  intros (p & Hcall & Hp) Ha. unfold Express.request.
  destruct Ha as [-> | [-> | ->]];
    [rewrite promises_dispatch | rewrite generators_dispatch
     | rewrite asyncAwait_dispatch];
    unfold sample_course, awaited, await, bind; rewrite Hcall, Hp; reflexivity.
Qed.

Lemma first_rejection_skips_the_rest_witness :
  Express.request (Promises.app failing_utils) Express.GET "/" =
    Some {| body := "oh no!"; finished := true; nexts := [oh_no];
            reported := [oh_no]; unhandled := [] |}.
Proof.
  apply (first_rejection_skips_the_rest failing_utils oh_no).
  - exists (settled (Rejected oh_no)). split; intro w; reflexivity.
  - left; reflexivity.
Defined.

(** X2.  When the call of the second task throws, after the first task has
    resolved with [v], each of the three handlers returns as usual: the
    throw happens inside a [then] callback, a driven generator or an [async]
    function, and comes out as a rejection.  The line for [v] is written, the
    error-handling stage is invoked once with the thrown failure and ends the
    response with its message. *)
Theorem throw_of_second_call_is_reported (tu : TestUtils) (v : value) (e : failure) :
  resolves_with (asyncTaskGood tu) v ->
  (forall w, asyncTaskBad tu w = (Abrupt e, w)) ->
  (forall (rq rs : jsarg) (next : failure -> sync value) (w : world),
     fst (Promises.handler tu [rq; rs; AFn next] w) = Normal VUndefined /\
     fst (Generators.wrap (Generators.route_body tu) [rq; rs; AFn next] w) =
       Normal VUndefined /\
     fst (AsyncAwait.wrap (AsyncAwait.route_body tu) [rq; rs; AFn next] w) =
       Normal VUndefined) /\
  (forall a : Express.app,
     a = Promises.app tu \/ a = Generators.app tu \/ a = AsyncAwait.app tu ->
     Express.request a Express.GET "/" =
       Some {| body := to_string v ++ newline ++ message e; finished := true;
               nexts := [e]; reported := [e]; unhandled := [] |}).
Proof.
  intros (p & Hcall & Hp) Hthrow. split.
  - intros rq rs next w.
    rewrite promises_handler_course, generators_handler_course,
      asyncAwait_handler_course, Hcall. repeat split.
  - intros a Ha. unfold Express.request.
    destruct Ha as [-> | [-> | ->]];
      [rewrite promises_dispatch | rewrite generators_dispatch
       | rewrite asyncAwait_dispatch];
      unfold sample_course, awaited, await, bind;
      rewrite Hcall, Hp, Hthrow; cbn; now rewrite append_assoc.
Qed.

Lemma throw_of_second_call_is_reported_witness :
  Express.request (Promises.app late_throwing_utils) Express.GET "/" =
    Some {| body := "Hello World" ++ newline ++ "oh no!"; finished := true;
            nexts := [oh_no]; reported := [oh_no]; unhandled := [] |}.
Proof.
  apply (throw_of_second_call_is_reported late_throwing_utils
           (VString "Hello World") oh_no).
  - exists (settled (Fulfilled (VString "Hello World"))).
    split; intro w; reflexivity.
  - intro w; reflexivity.
  - left; reflexivity.
Defined.

(** X3.  When the third argument of the call is not a function and the
    first task rejects, each of the three handlers still returns, and the
    failure stays on the promise that [.catch] gave back: it is unhandled,
    nothing is written and the response is not ended. *)
Theorem rejection_without_next_is_unhandled (tu : TestUtils) (e : failure)
  (args : list jsarg) (w : world) :
  rejects_with (asyncTaskGood tu) e ->
  callable (arg 2 args) = false ->
  Promises.handler tu args w = (Normal VUndefined, note_unhandled e w) /\
  Generators.wrap (Generators.route_body tu) args w =
    (Normal VUndefined, note_unhandled e w) /\
  AsyncAwait.wrap (AsyncAwait.route_body tu) args w =
    (Normal VUndefined, note_unhandled e w).
Proof.
  intros (p & Hcall & Hp) Hnext.
  unfold Promises.handler, Generators.wrap, Generators.route_body,
    Bluebird.coroutine, AsyncAwait.wrap, AsyncAwait.route_body, async, await,
    discard, catch_, then_, bind.
  cbn [Bluebird.run]. rewrite Hcall, Hp.
  destruct (arg 2 args) as [| | |k|v]; try discriminate Hnext; repeat split.
Qed.

Lemma rejection_without_next_is_unhandled_witness :
  Generators.wrap (Generators.route_body failing_utils) [AReq; ARes] fresh =
    (Normal VUndefined, note_unhandled oh_no fresh).
Proof.
  apply (rejection_without_next_is_unhandled failing_utils oh_no [AReq; ARes] fresh).
  - exists (settled (Rejected oh_no)). split; intro w; reflexivity.
  - reflexivity.
Defined.



(** A request to the route of a sample, in any program that holds it:
    the state left is the course of the route with the [next] of that
    program. *)
Lemma promises_dispatch_in (tu : TestUtils) (a : Express.app) (w : world) :
  find (Express.matches Express.GET "/") (Express.routes a) =
    Some {| Express.verb := Express.GET; Express.path := "/";
            Express.action := Promises.handler tu |} ->
  Express.dispatch a Express.GET "/" w = Some (sample_course tu (Express.next a) w).
Proof.
  intros Hr. unfold Express.dispatch. rewrite Hr. cbn [Express.action].
  unfold Express.call_args. rewrite promises_handler_course.
  unfold sample_course, awaited, bind.
  destruct (asyncTaskGood tu w) as [[p|e] w1]; [reflexivity|].
  now rewrite caught_next.
Qed.

Lemma generators_dispatch_in (tu : TestUtils) (a : Express.app) (w : world) :
  find (Express.matches Express.GET "/") (Express.routes a) =
    Some {| Express.verb := Express.GET; Express.path := "/";
            Express.action := Generators.wrap (Generators.route_body tu) |} ->
  Express.dispatch a Express.GET "/" w = Some (sample_course tu (Express.next a) w).
Proof.
  intros Hr. unfold Express.dispatch. rewrite Hr. cbn [Express.action].
  unfold Express.call_args. now rewrite generators_handler_course.
Qed.

Lemma asyncAwait_dispatch_in (tu : TestUtils) (a : Express.app) (w : world) :
  find (Express.matches Express.GET "/") (Express.routes a) =
    Some {| Express.verb := Express.GET; Express.path := "/";
            Express.action := AsyncAwait.wrap (AsyncAwait.route_body tu) |} ->
  Express.dispatch a Express.GET "/" w = Some (sample_course tu (Express.next a) w).
Proof.
  intros Hr. unfold Express.dispatch. rewrite Hr. cbn [Express.action].
  unfold Express.call_args. now rewrite asyncAwait_handler_course.
Qed.

(** Either a request is GET ['/'] or it is another one. *)
Lemma get_root_or_not (m : Express.method) (p : string) :
  (m = Express.GET /\ p = "/") \/ (m <> Express.GET \/ p <> "/").
Proof.
  destruct (String.eqb_spec p "/") as [-> | Hp]; [|now right; right].
  destruct m; try (right; left; discriminate). now left.
Qed.

(** X5.  The error-handling middleware of the programs never calls the
    [next] it is given, so a further error-handling middleware registered
    after it is never invoked: with any such middleware added, every request
    is answered as before. *)
Theorem later_stage_is_never_reached (tu : TestUtils) (extra : Express.error_handler)
  (m : Express.method) (p : string) (w : world) :
  Express.dispatch (Express.use extra (Promises.app tu)) m p w =
    Express.dispatch (Promises.app tu) m p w /\
  Express.dispatch (Express.use extra (Generators.app tu)) m p w =
    Express.dispatch (Generators.app tu) m p w /\
  Express.dispatch (Express.use extra (AsyncAwait.app tu)) m p w =
    Express.dispatch (AsyncAwait.app tu) m p w.
Proof.
  destruct (get_root_or_not m p) as [[-> ->] | Hmp].
  - rewrite (promises_dispatch_in tu (Express.use extra (Promises.app tu))) by reflexivity.
    rewrite (generators_dispatch_in tu (Express.use extra (Generators.app tu)))
      by reflexivity.
    rewrite (asyncAwait_dispatch_in tu (Express.use extra (AsyncAwait.app tu)))
      by reflexivity.
    rewrite promises_dispatch, generators_dispatch, asyncAwait_dispatch.
    repeat split; f_equal; apply sample_course_ext; intros e w'; reflexivity.
  - assert (A := no_other_route (Promises.app tu) _ m p w eq_refl Hmp).
    assert (B := no_other_route (Generators.app tu) _ m p w eq_refl Hmp).
    assert (C := no_other_route (AsyncAwait.app tu) _ m p w eq_refl Hmp).
    assert (A' := no_other_route (Express.use extra (Promises.app tu)) _ m p w
                    eq_refl Hmp).
    assert (B' := no_other_route (Express.use extra (Generators.app tu)) _ m p w
                    eq_refl Hmp).
    assert (C' := no_other_route (Express.use extra (AsyncAwait.app tu)) _ m p w
                    eq_refl Hmp).
    rewrite A, B, C, A', B', C'. repeat split.
Qed.



Lemma sample_course_quiet (tu : TestUtils) :
  quiet (asyncTaskGood tu) -> quiet (asyncTaskBad tu) ->
  let w := sample_course tu sample_next fresh in
  unhandled w = [] /\ nexts w = reported w /\ length (reported w) <= 1 /\
  (finished w = true <-> reported w <> []).
Proof.
  intros Hgood Hbad. unfold sample_course, awaited, await, bind.
  destruct Hgood as [[e He] | (p & o & Hcall & Hp)].
  - rewrite He. cbn. repeat split; auto; discriminate.
  - rewrite Hcall, Hp. destruct o as [v|e].
    + destruct Hbad as [[e He] | (q & o & Hcall' & Hq)].
      * rewrite He. cbn. repeat split; auto; discriminate.
      * rewrite Hcall', Hq. destruct o as [v'|e];
          cbn; repeat split; auto; try discriminate; intros H; now elim H.
    + cbn. repeat split; auto; discriminate.
Qed.

(** X7.  Whatever the two tasks do without touching the request, throw
    when called, reject or resolve, a request to each of the three programs
    leaves no failure unhandled, calls [next] only to invoke the
    error-handling stage, invokes that stage at most once, and ends the
    response exactly when it has invoked it. *)
Theorem quiet_tasks_are_handled (tu : TestUtils) (a : Express.app) :
  quiet (asyncTaskGood tu) ->
  quiet (asyncTaskBad tu) ->
  a = Promises.app tu \/ a = Generators.app tu \/ a = AsyncAwait.app tu ->
  exists w : world,
    Express.request a Express.GET "/" = Some w /\
    unhandled w = [] /\ nexts w = reported w /\ length (reported w) <= 1 /\
    (finished w = true <-> reported w <> []).
Proof.
  intros Hgood Hbad Ha. exists (sample_course tu sample_next fresh). split.
  - unfold Express.request.
    destruct Ha as [-> | [-> | ->]];
      [apply promises_dispatch | apply generators_dispatch | apply asyncAwait_dispatch].
  - apply sample_course_quiet; assumption.
Qed.

Lemma quiet_tasks_are_handled_witness :
  exists w : world,
    Express.request (AsyncAwait.app late_throwing_utils) Express.GET "/" = Some w /\
    unhandled w = [] /\ nexts w = reported w /\ length (reported w) <= 1 /\
    (finished w = true <-> reported w <> []).
Proof.
  apply (quiet_tasks_are_handled late_throwing_utils).
  - right. exists (settled (Fulfilled (VString "Hello World"))),
      (Fulfilled (VString "Hello World")). split; intro w; reflexivity.
  - left. exists oh_no. intro w; reflexivity.
  - right; right; reflexivity.
Defined.

Lemma find_at_end (f : Express.route -> bool) (l : list Express.route)
  (r1 r2 : Express.route) :
  f r1 = f r2 ->
  (exists r, find f (l ++ [r1]) = Some r /\ find f (l ++ [r2]) = Some r) \/
  (find f (l ++ [r1]) = Some r1 /\ find f (l ++ [r2]) = Some r2) \/
  (find f (l ++ [r1]) = None /\ find f (l ++ [r2]) = None).
Proof.
  intros Hf. induction l as [|r l IH]; cbn [app find].
  - rewrite <- Hf. destruct (f r1); [right; left | right; right]; now split.
  - destruct (f r); [left; now exists r | exact IH].
Qed.

(** X8.  Under the framework, which calls a handler with three
    arguments, the wrapper of [asyncAwait.js] applied to the coroutine of a
    generator function does what the wrapper of [generators.js] does with
    that generator function: in any program, whatever its other routes and
    error-handling stages, putting one for the other changes no request. *)
Theorem wrappers_are_interchangeable (genFn : list jsarg -> generator)
  (base : Express.app) (q : string) (m : Express.method) (p : string) (w : world) :
  Express.dispatch (Express.get q (Generators.wrap genFn) base) m p w =
  Express.dispatch
    (Express.get q (AsyncAwait.wrap (Bluebird.coroutine genFn)) base) m p w.
Proof.
  unfold Express.dispatch, Express.get. cbn [Express.routes].
  destruct (find_at_end (Express.matches m p) (Express.routes base)
              {| Express.verb := Express.GET; Express.path := q;
                 Express.action := Generators.wrap genFn |}
              {| Express.verb := Express.GET; Express.path := q;
                 Express.action := AsyncAwait.wrap (Bluebird.coroutine genFn) |}
              eq_refl)
    as [(r & H1 & H2) | [(H1 & H2) | (H1 & H2)]]; rewrite H1, H2; reflexivity.
Qed.

(** ** The handlers of the article *)


(** X10.  The callback handler of the article, which passes the failure
    of each callback to [next], does what its promise chain ending in
    [.catch(next)] does, for tasks that end the same way: [next] is called
    once with the first failure, the conversion is not started when the query
    failed, and [next] is not called when both succeed. *)
Theorem callbacks_with_next_match_the_chain (o1 : outcome value)
  (o2 : value -> outcome value) (rq rs : jsarg) (k : failure -> sync value)
  (w : world) :
  Article.callback_handler (calls_back o1) (fun data => calls_back (o2 data))
    [rq; rs; AFn k] w =
  Article.promise_handler (ret (settled o1)) (fun data => ret (settled (o2 data)))
    [rq; rs; AFn k] w /\
  Article.callback_handler (calls_back o1) (fun data => calls_back (o2 data))
    [rq; rs; AFn k] w =
  (Normal VUndefined,
   match o1 with
   | Rejected e => caught (AFn k) (Some e) w
   | Fulfilled data =>
       match o2 data with
       | Rejected e => caught (AFn k) (Some e) w
       | Fulfilled _ => w
       end
   end).
Proof.
  unfold Article.callback_handler, Article.promise_handler, calls_back, invoke,
    discard, catch_, then_, bind, ret, settled, arg, caught.
  cbn [nth]. destruct o1 as [data|e].
  - destruct (o2 data) as [csv|e]; [split; reflexivity|].
    destruct (k e w) as [[v|e'] w1]; split; reflexivity.
  - destruct (k e w) as [[v|e'] w1]; split; reflexivity.
Qed.




